(* ===== verification/_CoqProject ===== *)
-Q . S2P
Prelude.v
Jsx.v
Appointment.v
AppointmentList.v
Home.v
Interaction.v
