(* ===== verification/Prelude.v ===== *)
(** * A verification development of the healthcare appointment front end

    The repository (templates/frontend/src) holds two React components
    written in TypeScript/JSX:

    - [components/AppointmentList.tsx]: the [Appointment] interface
      (lines 3-11), the [AppointmentListProps] interface (lines 13-16) and
      the function component [AppointmentList] (lines 18-35), which renders
      a heading and one clickable [<li>] per appointment, each carrying the
      key [appointment.id] and an [onClick] closure that calls
      [onAppointmentClick(appointment.id)];
    - [pages/Home.tsx]: the function component [Home] (lines 4-12), which
      renders a heading, a paragraph and [<AppointmentList />] with no
      attributes.

    The components share no state: [Home] creates a React element for
    [AppointmentList]; React calls the component with the props object of
    that element and mounts the host tree it returns; a click on a mounted
    node runs the [onClick] handlers of the node and of its ancestors.

    The files of the development, in dependency order:

    - [Prelude] (this file): the scope [hc_scope], the tactics and the
      hint database [hc] of the development, and the generic lemmas on
      lists and strings the components share.
    - [Jsx]: the part of the JSX/React runtime the components rely on,
      modelled from the language's documented semantics (it is not code of
      the repository and is not mapped to it): the JSX text-cleaning rule
      of the JSX compiler ([clean_jsx_text]), child normalisation
      ([render_jsx]: strings, arrays and elements), host nodes ([node]),
      composite elements and mounting with fuel ([mount]), [textContent],
      and click dispatch with bubbling ([dispatch_click]) with React's
      "run every listener, rethrow the first error" rule.  Event handlers
      are state transformers [eff W] on an abstract world [W] that may
      throw a [js_error].
    - [Appointment]: the [Appointment] record, JavaScript's
      [String(number)] on the integral ids ([number_to_string]), its
      decoder [parse_int] and the React key of an appointment.
    - [AppointmentList]: the props record and the component, written as
      the JSX of the source (raw text with its whitespace), the item
      renderer, and the theorems: the exact shape of the rendered tree, one
      item per appointment in input order, the text of an item, the click
      contract (a click anywhere inside item i calls the callback exactly
      once with the id of item i, clicks elsewhere call nothing), unique
      keys iff unique ids, the round trip from a rendered item back to the
      appointment when no field is empty, and the error paths
      (missing [appointments] throws during rendering, a missing callback
      throws at click time).  The contract of the component is a class
      [ClickableList]; the component is an instance of it, and the
      theorems on sequences of clicks are proved against the class.
    - [Home]: the [Home] component and the props object that
      [<AppointmentList />] produces from its attributes
      ([props_of_attrs]); the theorem that mounting Home ends in the
      TypeError of [appointments.map], since both props are undefined.
    - [Interaction]: the contract of a clickable list as a class
      [ClickableList] (element, ids in order, callback, item paths, and the
      law that a click in item i runs the callback once with the i-th id),
      [AppointmentList] as an instance of it, and sequences of clicks
      ([click_all]) proved against the class: a logging callback records
      exactly the clicked ids in click order.

    Theorems, by kind: the functional behaviour of the render (exact tree,
    count, order, text, heading); the click contract as a refinement of
    "select item i" and its safety outside the items; keys unique iff ids
    unique; the round trip from a mounted item back to its appointment
    (when no field is empty); the error paths (undefined [appointments],
    undefined callback, Home's crash); and sequences of clicks.  Each
    theorem with hypotheses has a witness on the example of the
    specification (Alice with Dr. Smith, id 1, and a second appointment).

    Fuel: [mount] takes fuel because a component may return an element of
    another component without bound.  [mount_fuel_mono] shows that more
    fuel never changes a result once reached, and [mount_host_tree] that
    a component-free element of depth n mounts with fuel n.  The list view
    has depth 5 and sits under one component, so fuel 6 suffices for
    [AppointmentList] (the theorems hold for every fuel from 6, and for
    every fuel that returns a tree); Home throws from fuel 4.

    Integers: a TypeScript [number] id is modelled as [Z] with the
    invariant [is_safe_integer] (|id| <= 2^53 - 1); on that range every
    integer is a double and [String(id)] is its decimal form, which is what
    [number_to_string] computes.  Ids outside that range (rounded doubles,
    exponent notation from 1e21) are not modelled.

    Not modelled: the styling and layout of the browser; React's
    reconciliation of a re-render against the previous tree (keys are
    modelled and proved unique, the diffing algorithm is not); the
    [React] import and the [export default] lines, which only bind names.

    Plan for the following sittings, in order: (1) React's keyed
    reconciliation of the list on a re-render with new props, with the
    theorem that an item whose id is kept keeps its DOM node and handler
    (refinement against an abstract map from ids to items); (2) a parent
    that keeps the selected id in state and passes a callback that sets it
    (a step relation on the parent's state, reachability: the selection is
    always an id of the current list or none); (3) the [is_safe_integer]
    bound carried through the keys (bounds); (4) the text of the whole
    mounted list as the concatenation of the items' texts. *)

From stdpp Require Export base list strings.
From Stdlib Require Export ZArith Ascii String.

Declare Scope hc_scope.
Delimit Scope hc_scope with hc.

Create HintDb hc.

(** Nested induction principles for trees whose children are lists: the
    hypothesis on the children is a [list_all]. *)
Scheme All for list.
Create Rewrite HintDb hc_rw.

(** Concatenation of the strings of a list, as [Array.prototype.join("")]. *)
Definition str_concat (l : list string) : string := String.concat "" l.

(** String concatenation is a monoid.  stdpp declares [String.append]
    [simpl never], so its two equations are stated and rewritten with. *)
Lemma str_app_nil_l (s : string) : ("" ++ s)%string = s.
Proof. reflexivity. Qed.

Lemma str_app_cons c (s t : string) : (String c s ++ t)%string = String c (s ++ t).
Proof. reflexivity. Qed.

Lemma str_app_nil_r (s : string) : (s ++ "")%string = s.
Proof. induction s; [done|]. by rewrite str_app_cons, IHs. Qed.

Lemma str_app_assoc (s t u : string) :
  (s ++ (t ++ u))%string = ((s ++ t) ++ u)%string.
Proof. induction s; [done|]. by rewrite !str_app_cons, IHs. Qed.

Lemma str_concat_cons s l : str_concat (s :: l) = (s ++ str_concat l)%string.
Proof. destruct l; simpl; [by rewrite str_app_nil_r | done]. Qed.

Lemma str_concat_app l1 l2 :
  str_concat (l1 ++ l2) = (str_concat l1 ++ str_concat l2)%string.
Proof.
  induction l1 as [|s l1 IH]; [done|].
  rewrite <-app_comm_cons, !str_concat_cons, IH. apply str_app_assoc.
Qed.

Lemma lookup_map_Some {A B} (f : A -> B) (l : list A) i x :
  l !! i = Some x -> map f l !! i = Some (f x).
Proof. intros H. by rewrite list_lookup_fmap, H. Qed.

Lemma list_all_In {A} (P : A -> Prop) (l : list A) :
  list_all A P l -> forall x, In x l -> P x.
Proof. induction 1; simpl; [done|]. intros y [<-|Hy]; auto. Qed.

#[export] Hint Rewrite str_app_nil_l str_app_cons str_app_nil_r str_concat_cons str_concat_app : hc_rw.
