(* ===== verification/Jsx.v ===== *)
(** * The JSX and React runtime the components rely on

    This file is the language layer, written from the documented semantics
    of JSX and React DOM (it is not code of the repository):
    - [clean_jsx_text]: how the JSX compiler turns the raw text between
      tags into a string child (lines split at line breaks, tabs turned
      into spaces, leading spaces of every line but the first and trailing
      spaces of every line but the last removed, empty lines dropped, the
      remaining lines joined with one space);
    - [jsx] and [render_jsx]: JSX children as written, and React's
      normalisation of them into element children (empty strings render
      nothing, arrays are flattened in order);
    - [relem], [node] and [mount]: React elements (host or composite) and
      the host tree that mounting produces, with fuel, in the [outcome]
      monad (a value, a thrown [js_error], or out of fuel);
    - [text_content], [node_at], [handlers_at] and [dispatch_click]: the
      DOM's [textContent], addressing a node by a path of child indices,
      and a click that bubbles from the target to the root and runs every
      [onClick] on the way, keeping the first error (React's
      [invokeGuardedCallbackAndCatchFirstError]). *)

From S2P Require Import Prelude.

(** Errors a JavaScript expression can throw in this program. *)
Inductive js_error :=
  | TypeError (msg : string).

#[export] Instance js_error_eq_dec : EqDecision js_error.
Proof. solve_decision. Defined.

(** ** The outcome monad: a value, an exception, or no result in the fuel *)

Inductive outcome (A : Type) :=
  | Returns (a : A)
  | Throws (e : js_error)
  | OutOfFuel.
Arguments Returns {A} a.
Arguments Throws {A} e.
Arguments OutOfFuel {A}.

Definition obind {A B} (m : outcome A) (k : A -> outcome B) : outcome B :=
  match m with
  | Returns a => k a
  | Throws e => Throws e
  | OutOfFuel => OutOfFuel
  end.

Notation "'let!' x := m 'in' k" := (obind m (fun x => k))
  (at level 100, x name, m at level 99, k at level 100) : hc_scope.
Open Scope hc_scope.

(** ** JSX text *)

Definition LF : ascii := "010"%char.
Definition CR : ascii := "013"%char.
Definition TAB : ascii := "009"%char.
Definition SP : ascii := " "%char.

(** [raw.split(/\r\n|\n|\r/)]: [cur] is the current line, reversed. *)
Fixpoint split_lines_aux (cs cur : list ascii) : list (list ascii) :=
  match cs with
  | [] => [rev cur]
  | c :: r =>
      if Ascii.eqb c LF then rev cur :: split_lines_aux r []
      else if Ascii.eqb c CR then
        match r with
        | c' :: r' =>
            if Ascii.eqb c' LF then rev cur :: split_lines_aux r' []
            else rev cur :: split_lines_aux r []
        | [] => rev cur :: split_lines_aux r []
        end
      else split_lines_aux r (c :: cur)
  end.

Definition split_lines (cs : list ascii) : list (list ascii) := split_lines_aux cs [].

(** [line.match(/[^ \t]/)] fails. *)
Definition blank_line (l : list ascii) : bool :=
  forallb (fun c => Ascii.eqb c SP || Ascii.eqb c TAB) l.

(** The index of the last line with a character other than space and tab
    (0 when there is none). *)
Fixpoint last_nonblank_from (i acc : nat) (ls : list (list ascii)) : nat :=
  match ls with
  | [] => acc
  | l :: r => last_nonblank_from (S i) (if blank_line l then acc else i) r
  end.

Definition tabs_to_spaces (l : list ascii) : list ascii :=
  map (fun c => if Ascii.eqb c TAB then SP else c) l.

(** [replace(/^[ ]+/, "")] and [replace(/[ ]+$/, "")]. *)
Fixpoint trim_start_spaces (l : list ascii) : list ascii :=
  match l with
  | c :: r => if Ascii.eqb c SP then trim_start_spaces r else l
  | [] => []
  end.

Definition trim_end_spaces (l : list ascii) : list ascii :=
  rev (trim_start_spaces (rev l)).

Fixpoint clean_lines (i n last : nat) (ls : list (list ascii)) : list ascii :=
  match ls with
  | [] => []
  | l :: r =>
      let t0 := tabs_to_spaces l in
      let t1 := if Nat.eqb i 0 then t0 else trim_start_spaces t0 in
      let t2 := if Nat.eqb (S i) n then t1 else trim_end_spaces t1 in
      let piece :=
        match t2 with
        | [] => []
        | _ => if Nat.eqb i last then t2 else t2 ++ [SP]
        end in
      piece ++ clean_lines (S i) n last r
  end.

Definition clean_jsx_text (raw : string) : string :=
  let ls := split_lines (list_ascii_of_string raw) in
  string_of_list_ascii (clean_lines 0 (List.length ls) (last_nonblank_from 0 0 ls) ls).

(** A line break followed by [n] spaces: the indentation between tags. *)
Definition indent (n : nat) : string :=
  String LF (string_of_list_ascii (repeat SP n)).

Section Runtime.
Context {W : Type}.

(** An event handler: runs against the world and may throw. *)
Definition eff : Type := W -> W * option js_error.

(** ** React elements and JSX children *)

Inductive relem :=
  | RText (s : string)
  | RHost (tag : string) (key : option string) (onClick : option eff)
          (children : list relem)
  | RComp (name : string) (body : unit -> outcome relem).

Inductive jsx :=
  | JText (raw : string)
  | JExpr (s : string)
  | JArray (items : list jsx)
  | JElem (tag : string) (key : option string) (onClick : option eff)
          (children : list jsx)
  | JComp (name : string) (body : unit -> outcome relem).

(** A string child: React renders nothing for the empty string. *)
Definition text_child (s : string) : list relem :=
  if String.eqb s "" then [] else [RText s].

Fixpoint render_jsx (j : jsx) : list relem :=
  match j with
  | JText raw => text_child (clean_jsx_text raw)
  | JExpr s => text_child s
  | JArray items => flat_map render_jsx items
  | JElem tag key h cs => [RHost tag key h (flat_map render_jsx cs)]
  | JComp name body => [RComp name body]
  end.

(** The element of a JSX element expression [<tag ...>children</tag>]. *)
Definition jsx_el (tag : string) (key : option string) (h : option eff)
    (cs : list jsx) : relem :=
  RHost tag key h (flat_map render_jsx cs).

(** [React.createElement(Comp, props)] for a function component. *)
Definition create_element {P : Type} (name : string) (comp : P -> outcome relem)
    (props : P) : relem :=
  RComp name (fun _ => comp props).

(** ** Host nodes and mounting *)

Inductive node :=
  | Text (s : string)
  | Element (tag : string) (key : option string) (onClick : option eff)
            (children : list node).

Fixpoint mount (fuel : nat) (e : relem) : outcome node :=
  match fuel with
  | 0 => OutOfFuel
  | S f =>
      match e with
      | RText s => Returns (Text s)
      | RHost tag key h cs =>
          let! ns := (fix go (cs : list relem) : outcome (list node) :=
                        match cs with
                        | [] => Returns []
                        | c :: r => let! n := mount f c in
                                    let! ns := go r in Returns (n :: ns)
                        end) cs in
          Returns (Element tag key h ns)
      | RComp _ body => let! e' := body tt in mount f e'
      end
  end.

Definition mount_children (f : nat) : list relem -> outcome (list node) :=
  fix go (cs : list relem) : outcome (list node) :=
    match cs with
    | [] => Returns []
    | c :: r => let! n := mount f c in let! ns := go r in Returns (n :: ns)
    end.

Lemma mount_host f tag key h cs :
  mount (S f) (RHost tag key h cs) =
  (let! ns := mount_children f cs in Returns (Element tag key h ns)).
Proof. reflexivity. Qed.

Lemma mount_comp f name body :
  mount (S f) (RComp name body) = (let! e := body tt in mount f e).
Proof. reflexivity. Qed.

(** ** The DOM: text, addressing, click dispatch *)

Fixpoint text_content (n : node) : string :=
  match n with
  | Text s => s
  | Element _ _ _ cs => str_concat (map text_content cs)
  end.

Fixpoint node_at (n : node) (path : list nat) : option node :=
  match path with
  | [] => Some n
  | i :: p =>
      match n with
      | Text _ => None
      | Element _ _ _ cs => match cs !! i with
                            | Some c => node_at c p
                            | None => None
                            end
      end
  end.

Definition own_handlers (n : node) : list eff :=
  match n with
  | Text _ => []
  | Element _ _ h _ => option_list h
  end.

(** The handlers a click on [path] runs, target first, root last. *)
Fixpoint handlers_at (n : node) (path : list nat) : option (list eff) :=
  match path with
  | [] => Some (own_handlers n)
  | i :: p =>
      match n with
      | Text _ => None
      | Element _ _ h cs =>
          match cs !! i with
          | Some c => match handlers_at c p with
                      | Some hs => Some (hs ++ option_list h)
                      | None => None
                      end
          | None => None
          end
      end
  end.

Fixpoint run_handlers (hs : list eff) (w : W) (first : option js_error)
    : W * option js_error :=
  match hs with
  | [] => (w, first)
  | h :: r =>
      let '(w', e) := h w in
      run_handlers r w' (match first with Some _ => first | None => e end)
  end.

(** A click on the node at [path] of the mounted tree [root]: [None] when
    no node is there. *)
Definition dispatch_click (root : node) (path : list nat) (w : W)
    : option (W * option js_error) :=
  match handlers_at root path with
  | Some hs => Some (run_handlers hs w None)
  | None => None
  end.

(** ** Lemmas on mounting *)

Lemma mount_children_cons f c cs :
  mount_children f (c :: cs) =
  (let! n := mount f c in let! ns := mount_children f cs in Returns (n :: ns)).
Proof. reflexivity. Qed.

Lemma mount_children_mono n m cs :
  (forall e, mount n e <> OutOfFuel -> mount m e = mount n e) ->
  mount_children n cs <> OutOfFuel -> mount_children m cs = mount_children n cs.
Proof.
  intros IH. induction cs as [|c cs IHcs]; [done|]. rewrite !mount_children_cons.
  destruct (mount n c) eqn:Ec; simpl; intros Hne; [| |done];
    rewrite (IH c) by (rewrite Ec; discriminate); rewrite Ec; simpl; [|done].
  rewrite IHcs; [done|]. intros Hcs. by rewrite Hcs in Hne.
Qed.

(** More fuel never changes a result that was reached. *)
Lemma mount_fuel_mono n m e :
  mount n e <> OutOfFuel -> n <= m -> mount m e = mount n e.
Proof.
  revert m e. induction n as [|n IH]; intros m e Hn Hle; [done|].
  destruct m as [|m]; [lia|]. destruct e as [s|tag key h cs|name body]; [done| |].
  - rewrite !mount_host in Hn |- *.
    rewrite (mount_children_mono n m); [done| |].
    + intros e He. apply IH; [done|lia].
    + intros Hc. by rewrite Hc in Hn.
  - simpl in *. destruct (body tt) as [e'| |]; simpl in *; [|done|done].
    apply IH; [done|lia].
Qed.

(** ** Composite-free elements

    [host_tree e] is the host tree of an element with no component inside,
    and [fits n e] says that its depth is at most [n]; such an element mounts
    to its tree with fuel [n]. *)

Fixpoint host_tree (e : relem) : option node :=
  match e with
  | RText s => Some (Text s)
  | RHost tag key h cs =>
      match (fix go (cs : list relem) : option (list node) :=
               match cs with
               | [] => Some []
               | c :: r => match host_tree c, go r with
                           | Some n, Some ns => Some (n :: ns)
                           | _, _ => None
                           end
               end) cs with
      | Some ns => Some (Element tag key h ns)
      | None => None
      end
  | RComp _ _ => None
  end.

Definition host_trees : list relem -> option (list node) :=
  fix go (cs : list relem) : option (list node) :=
    match cs with
    | [] => Some []
    | c :: r => match host_tree c, go r with
                | Some n, Some ns => Some (n :: ns)
                | _, _ => None
                end
    end.

Lemma host_tree_RHost tag key h cs :
  host_tree (RHost tag key h cs) =
  match host_trees cs with Some ns => Some (Element tag key h ns) | None => None end.
Proof. reflexivity. Qed.

Lemma host_trees_app l1 l2 ns1 ns2 :
  host_trees l1 = Some ns1 -> host_trees l2 = Some ns2 ->
  host_trees (l1 ++ l2) = Some (ns1 ++ ns2).
Proof.
  revert ns1. induction l1 as [|c l1 IH]; intros ns1 H1 H2; simpl in *.
  - by injection H1 as <-.
  - destruct (host_tree c), (host_trees l1) as [ns|] eqn:E; try done.
    injection H1 as <-. by rewrite (IH ns).
Qed.

Fixpoint fits (n : nat) (e : relem) : bool :=
  match n with
  | 0 => false
  | S m => match e with
           | RHost _ _ _ cs => forallb (fits m) cs
           | _ => true
           end
  end.

Lemma mount_host_tree n e t :
  fits n e = true -> host_tree e = Some t -> mount n e = Returns t.
Proof.
  revert e t. induction n as [|n IH]; intros e t Hf Ht; [done|].
  destruct e as [s|tag key h cs|name body]; simpl in Hf; try done.
  - by injection Ht as <-.
  - rewrite host_tree_RHost in Ht. destruct (host_trees cs) as [ns|] eqn:Hns; [|done].
    injection Ht as <-. rewrite mount_host.
    enough (mount_children n cs = Returns ns) as -> by done.
    revert ns Hns. induction cs as [|c cs IHcs]; intros ns Hns; simpl in *.
    + by injection Hns as <-.
    + apply andb_prop in Hf as [Hc Hcs].
      destruct (host_tree c) as [nc|] eqn:Ec, (host_trees cs) as [ncs|]; try done.
      injection Hns as <-. by rewrite (IH c nc), (IHcs Hcs ncs).
Qed.

(** The node children of a string child. *)
Definition text_node (s : string) : list node :=
  if String.eqb s "" then [] else [Text s].

Lemma host_trees_text_child s : host_trees (text_child s) = Some (text_node s).
Proof. unfold text_child, text_node. by destruct (String.eqb s ""). Qed.

Lemma text_content_text_node s : str_concat (map text_content (text_node s)) = s.
Proof.
  unfold text_node. destruct (String.eqb s "") eqn:E; simpl; [|done].
  by apply String.eqb_eq in E as ->.
Qed.

(** ** Lemmas on addressing and dispatch *)

Lemma node_at_app (n : node) p q :
  node_at n (p ++ q) = match node_at n p with
                       | Some c => node_at c q
                       | None => None
                       end.
Proof.
  revert n. induction p as [|i p IH]; intros n; [done|].
  destruct n as [|t k h cs]; simpl; [done|].
  destruct (cs !! i); [apply IH|done].
Qed.

(** The handlers of the nodes strictly above the end of [p], deepest
    first. *)
Fixpoint path_handlers (n : node) (p : list nat) : list eff :=
  match p with
  | [] => []
  | i :: p' =>
      match n with
      | Text _ => []
      | Element _ _ h cs => match cs !! i with
                            | Some c => path_handlers c p' ++ option_list h
                            | None => []
                            end
      end
  end.

Lemma handlers_at_app (n c : node) p q :
  node_at n p = Some c ->
  handlers_at n (p ++ q) =
  match handlers_at c q with
  | Some hs => Some (hs ++ path_handlers n p)
  | None => None
  end.
Proof.
  revert n. induction p as [|i p IH]; intros n Hn; simpl in *.
  - injection Hn as ->. destruct (handlers_at c q); by rewrite ?app_nil_r.
  - destruct n as [|t k h cs]; [done|]. destruct (cs !! i) as [c'|]; [|done].
    rewrite (IH c' Hn). destruct (handlers_at c q); [|done]. by rewrite app_assoc.
Qed.

Lemma handlers_at_defined (n : node) p :
  is_Some (handlers_at n p) <-> is_Some (node_at n p).
Proof.
  revert n. induction p as [|i p IH]; intros n; simpl; [split; eauto|].
  destruct n as [|t k h cs]; [done|]. destruct (cs !! i) as [c|]; [|done].
  rewrite <-IH. destruct (handlers_at c p); split; intros []; eauto; done.
Qed.

(** A tree in which no element carries an [onClick]. *)
Fixpoint handler_free (n : node) : bool :=
  match n with
  | Text _ => true
  | Element _ _ h cs => bool_decide (h = None) && forallb handler_free cs
  end.

Lemma handlers_at_handler_free (n : node) p :
  handler_free n = true -> handlers_at n p = (fun _ => []) <$> node_at n p.
Proof.
  revert p. induction n as [s|t k h cs IHcs] using node_ind; intros p Hf;
    destruct p as [|i p]; simpl in *; try done.
  - apply andb_prop in Hf as [Hh Hcs]. apply bool_decide_eq_true in Hh as ->. done.
  - apply andb_prop in Hf as [Hh Hcs]. apply bool_decide_eq_true in Hh as ->.
    destruct (cs !! i) as [c|] eqn:Ec; [|done].
    assert (Hin : In c cs)
      by (apply list_elem_of_In; eapply list_elem_of_lookup_2; eauto).
    rewrite (list_all_In _ _ IHcs c Hin p).
    + by destruct (node_at c p).
    + rewrite forallb_forall in Hcs. by apply Hcs.
Qed.

(** [querySelectorAll(tag)]: the elements with that tag, in document
    order, the node itself first. *)
Fixpoint query_tag (tag : string) (n : node) : list node :=
  match n with
  | Text _ => []
  | Element t k h cs =>
      (if String.eqb t tag then [Element t k h cs] else []) ++
      flat_map (query_tag tag) cs
  end.

Definition node_key (n : node) : option string :=
  match n with
  | Text _ => None
  | Element _ k _ _ => k
  end.

Lemma run_handlers_one (h : eff) w : run_handlers [h] w None = h w.
Proof. simpl. by destruct (h w). Qed.

End Runtime.

Arguments relem W : clear implicits.
Arguments jsx W : clear implicits.
Arguments node W : clear implicits.
Arguments eff W : clear implicits.
#[export] Hint Rewrite @text_content_text_node : hc_rw.
