(* ===== verification/Appointment.v ===== *)
(** * Appointments and their React keys

    [Appointment] is the interface of AppointmentList.tsx (lines 3-11), one
    field per field.  The id is a TypeScript [number]; it is modelled as an
    integer of the safe range ([is_safe_integer], [Number.isSafeInteger]),
    where [String(id)] is the decimal form [number_to_string] computes.
    React turns the [key] attribute into a string with [String(key)], so
    [appointment_key] is the key of the item of an appointment.  The file
    proves that [number_to_string] is decoded back by [parse_int], hence
    injective, which the keyed-rendering theorems of AppointmentList use. *)

From S2P Require Import Prelude.
From Stdlib Require Import DecimalString DecimalZ DecimalPos.

Record Appointment := mkAppointment {
  id : Z;
  patient : string;
  doctor : string;
  start_time : string;
  end_time : string;
  status : string;
  reason : string
}.

#[export] Instance Appointment_eq_dec : EqDecision Appointment.
Proof. solve_decision. Defined.

(** [Number.MAX_SAFE_INTEGER] and [Number.isSafeInteger] on integers. *)
Definition max_safe_integer : Z := 2 ^ 53 - 1.

Definition is_safe_integer (z : Z) : bool :=
  (- max_safe_integer <=? z)%Z && (z <=? max_safe_integer)%Z.

(** [String(z)] for an integral number below 1e21 in absolute value: an
    optional minus sign and the decimal digits, no leading zero. *)
Definition number_to_string (z : Z) : string :=
  NilZero.string_of_int (Z.to_int z).

(** [parseInt(s, 10)] on the strings [number_to_string] produces. *)
Definition parse_int (s : string) : option Z :=
  match NilZero.int_of_string s with
  | Some d => Some (Z.of_int d)
  | None => None
  end.

(** The key React gives the [<li>] of an appointment: [String(appointment.id)]. *)
Definition appointment_key (a : Appointment) : string := number_to_string (id a).

Definition wf_appointment (a : Appointment) : bool := is_safe_integer (id a).

Definition wf_appointments (l : list Appointment) : bool := forallb wf_appointment l.

(** The precondition of keyed rendering (spec section 3): no two
    appointments of the list share an id. *)
Definition unique_ids (l : list Appointment) : Prop := NoDup (map id l).

#[export] Instance unique_ids_dec l : Decision (unique_ids l).
Proof. unfold unique_ids. apply _. Defined.

Lemma Z_to_int_nonnil (z : Z) :
  Z.to_int z <> Decimal.Pos Decimal.Nil /\ Z.to_int z <> Decimal.Neg Decimal.Nil.
Proof.
  destruct z as [|p|p]; simpl; split; try done;
    intros [=E]; by apply (Unsigned.to_uint_nonnil p).
Qed.

Lemma parse_int_number_to_string (z : Z) : parse_int (number_to_string z) = Some z.
Proof.
  unfold parse_int, number_to_string. destruct (Z_to_int_nonnil z) as [H1 H2].
  rewrite NilZero.isi by done. by rewrite DecimalZ.of_to.
Qed.

#[export] Instance number_to_string_inj : Inj (=) (=) number_to_string.
Proof.
  intros a b Hab. apply (f_equal parse_int) in Hab.
  rewrite !parse_int_number_to_string in Hab. congruence.
Qed.

#[export] Hint Resolve parse_int_number_to_string : hc.
