(* ===== verification/AppointmentList.v ===== *)
(** * The AppointmentList component (AppointmentList.tsx)

    [AppointmentListProps] is the props object the component receives
    (lines 13-16); a prop the caller leaves out is [undefined] at run
    time, written [None].  [call_onAppointmentClick] is the closure
    [() => onAppointmentClick(appointment.id)] of line 24,
    [appointment_item] the [<li>] of lines 24-30 and [AppointmentList]
    the component of lines 18-35, both written as the JSX of the source
    with its raw text and indentation.  [item_node] and [AppointmentList_view]
    are the host trees that React mounts for them, derived by the theorems
    of this file; they state what the component renders, not how. *)

From S2P Require Import Prelude Jsx Appointment.

Section AppointmentList.
Context {W : Type}.

Record AppointmentListProps := {
  appointments : option (list Appointment);
  onAppointmentClick : option (Z -> eff W)
}.

(** Calling [onAppointmentClick(i)]: a TypeError when the prop is undefined. *)
Definition call_onAppointmentClick (cb : option (Z -> eff W)) (i : Z) : eff W :=
  fun w => match cb with
           | Some f => f i w
           | None => (w, Some (TypeError "onAppointmentClick is not a function"))
           end.

Definition appointment_item (cb : option (Z -> eff W)) (appointment : Appointment)
    : jsx W :=
  JElem "li" (Some (number_to_string (id appointment)))
    (Some (call_onAppointmentClick cb (id appointment)))
    [ JText (indent 24);
      JElem "strong" None None [JExpr (patient appointment)];
      JText " with Dr. ";
      JExpr (doctor appointment);
      JText (String SP (indent 24));
      JElem "br" None None [];
      JText (indent 24);
      JExpr (start_time appointment);
      JText " - ";
      JExpr (end_time appointment);
      JText (String SP (indent 24));
      JElem "br" None None [];
      JText (indent 24 ++ "Status: ");
      JExpr (status appointment);
      JText " | Reason: ";
      JExpr (reason appointment);
      JText (indent 20) ].

Definition AppointmentList (props : AppointmentListProps) : outcome (relem W) :=
  match appointments props with
  | None => Throws (TypeError "Cannot read properties of undefined (reading 'map')")
  | Some appts =>
      Returns (jsx_el "div" None None
        [ JText (indent 12);
          JElem "h2" None None [JText "Appointment List"];
          JText (indent 12);
          JElem "ul" None None
            [ JText (indent 16);
              JArray (map (appointment_item (onAppointmentClick props)) appts);
              JText (indent 12) ];
          JText (indent 8) ])
  end.

(** ** What the component renders *)

Definition item_children (a : Appointment) : list (node W) :=
  [Element "strong" None None (text_node (patient a)); Text " with Dr. "] ++
  text_node (doctor a) ++ [Element "br" None None []] ++
  text_node (start_time a) ++ [Text " - "] ++ text_node (end_time a) ++
  [Element "br" None None []; Text "Status: "] ++ text_node (status a) ++
  [Text " | Reason: "] ++ text_node (reason a).

Definition item_node (cb : option (Z -> eff W)) (a : Appointment) : node W :=
  Element "li" (Some (appointment_key a)) (Some (call_onAppointmentClick cb (id a)))
    (item_children a).

Definition AppointmentList_view (cb : option (Z -> eff W)) (appts : list Appointment)
    : node W :=
  Element "div" None None
    [ Element "h2" None None [Text "Appointment List"];
      Element "ul" None None (map (item_node cb) appts) ].

(** Reading an appointment back from a mounted item: the key gives the id,
    the text children in their places give the fields. *)
Definition parse_item (n : node W) : option Appointment :=
  match n with
  | Element _ (Some k) _
      [Element _ _ _ [Text p]; _; Text d; _; Text st; _; Text en; _; _;
       Text sta; _; Text r] =>
      match parse_int k with
      | Some i => Some (mkAppointment i p d st en sta r)
      | None => None
      end
  | _ => None
  end.

Definition fields_nonempty (a : Appointment) : bool :=
  forallb (fun s => negb (String.eqb s ""))
    [patient a; doctor a; start_time a; end_time a; status a; reason a].

(** The root React mounts for [<AppointmentList {...props} />]. *)
Definition AppointmentList_element (props : AppointmentListProps) : relem W :=
  create_element "AppointmentList" AppointmentList props.

End AppointmentList.

Arguments AppointmentListProps W : clear implicits.

(** ** The example of the specification

    Used by the witnesses at the end of the file.  The callback appends the
    id to a log, so the world is the log. *)

Definition alice : Appointment :=
  mkAppointment 1 "Alice" "Smith" "09:00" "09:30" "confirmed" "checkup".
Definition bob : Appointment :=
  mkAppointment 2 "Bob" "Jones" "10:00" "10:45" "pending" "follow-up".

Definition log_click (i : Z) : eff (list Z) := fun log => (log ++ [i], None).

Definition demo_props : AppointmentListProps (list Z) :=
  {| appointments := Some [alice; bob]; onAppointmentClick := Some log_click |}.

Definition demo_root : node (list Z) := AppointmentList_view (Some log_click) [alice; bob].

Section AppointmentListProofs.
Context {W : Type}.

(** ** The JSX text of the source *)

Lemma clean_indent_24 : clean_jsx_text (indent 24) = "".
Proof. reflexivity. Qed.
Lemma clean_indent_20 : clean_jsx_text (indent 20) = "".
Proof. reflexivity. Qed.
Lemma clean_indent_16 : clean_jsx_text (indent 16) = "".
Proof. reflexivity. Qed.
Lemma clean_indent_12 : clean_jsx_text (indent 12) = "".
Proof. reflexivity. Qed.
Lemma clean_indent_8 : clean_jsx_text (indent 8) = "".
Proof. reflexivity. Qed.
Lemma clean_space_indent_24 : clean_jsx_text (String SP (indent 24)) = "".
Proof. reflexivity. Qed.
Lemma clean_status : clean_jsx_text (indent 24 ++ "Status: ") = "Status: ".
Proof. reflexivity. Qed.
Lemma clean_with_dr : clean_jsx_text " with Dr. " = " with Dr. ".
Proof. reflexivity. Qed.
Lemma clean_dash : clean_jsx_text " - " = " - ".
Proof. reflexivity. Qed.
Lemma clean_reason : clean_jsx_text " | Reason: " = " | Reason: ".
Proof. reflexivity. Qed.
Lemma clean_heading : clean_jsx_text "Appointment List" = "Appointment List".
Proof. reflexivity. Qed.

(** ** Rendering lemmas *)

Lemma item_render (cb : option (Z -> eff W)) a :
  forallb (fits 3) (render_jsx (appointment_item cb a)) = true /\
  host_trees (render_jsx (appointment_item cb a)) = Some [item_node cb a].
Proof.
  unfold appointment_item, item_node, item_children, text_node.
  cbn [render_jsx flat_map app].
  rewrite clean_indent_24, clean_indent_20, clean_space_indent_24, clean_status,
    clean_with_dr, clean_dash, clean_reason.
  unfold text_child.
  destruct (String.eqb (patient a) ""), (String.eqb (doctor a) ""),
    (String.eqb (start_time a) ""), (String.eqb (end_time a) ""),
    (String.eqb (status a) ""), (String.eqb (reason a) ""); simpl; split; reflexivity.
Qed.

Lemma items_render (cb : option (Z -> eff W)) appts :
  forallb (fits 3) (flat_map render_jsx (map (appointment_item cb) appts)) = true /\
  host_trees (flat_map render_jsx (map (appointment_item cb) appts)) =
    Some (map (item_node cb) appts).
Proof.
  induction appts as [|a appts [IHf IHh]]; [done|].
  destruct (item_render cb a) as [Hf Hh]. cbn [map flat_map]. split.
  - by rewrite forallb_app, Hf, IHf.
  - by rewrite (host_trees_app _ _ _ _ Hh IHh).
Qed.

Lemma AppointmentList_mount_6 (props : AppointmentListProps W) appts :
  appointments props = Some appts ->
  mount 6 (AppointmentList_element props) =
  Returns (AppointmentList_view (onAppointmentClick props) appts).
Proof.
  intros Hp. unfold AppointmentList_element, create_element. rewrite mount_comp.
  unfold AppointmentList. rewrite Hp. cbn [obind].
  destruct (items_render (onAppointmentClick props) appts) as [Hf Hh].
  apply mount_host_tree; unfold jsx_el; cbn [flat_map render_jsx];
    rewrite clean_indent_12, clean_indent_16, clean_indent_8, clean_heading;
    unfold text_child; simpl; rewrite app_nil_r.
  - rewrite andb_true_r. exact Hf.
  - unfold host_trees in Hh. by rewrite Hh.
Qed.

Lemma AppointmentList_mounted_root (props : AppointmentListProps W) appts fuel root :
  appointments props = Some appts ->
  mount fuel (AppointmentList_element props) = Returns root ->
  root = AppointmentList_view (onAppointmentClick props) appts.
Proof.
  intros Hp Hm. pose proof (AppointmentList_mount_6 props appts Hp) as H6.
  destruct (decide (6 <= fuel)).
  - rewrite (mount_fuel_mono 6 fuel) in Hm by (rewrite ?H6; done || lia). congruence.
  - rewrite (mount_fuel_mono fuel 6) in H6 by (rewrite ?Hm; done || lia). congruence.
Qed.

Lemma item_children_handler_free a :
  forallb handler_free (item_children (W:=W) a) = true.
Proof.
  unfold item_children, text_node.
  destruct (String.eqb (patient a) ""), (String.eqb (doctor a) ""),
    (String.eqb (start_time a) ""), (String.eqb (end_time a) ""),
    (String.eqb (status a) ""), (String.eqb (reason a) ""); reflexivity.
Qed.

Lemma item_node_handlers (cb : option (Z -> eff W)) a q :
  is_Some (node_at (item_node cb a) q) ->
  handlers_at (item_node cb a) q = Some [call_onAppointmentClick cb (id a)].
Proof.
  destruct q as [|j q]; [done|]. simpl.
  destruct (item_children a !! j) as [c|] eqn:Ec; [|by intros []].
  intros Hq. rewrite handlers_at_handler_free.
  - destruct (node_at c q); [done|]. by destruct Hq.
  - pose proof (item_children_handler_free a) as Hf. rewrite forallb_forall in Hf.
    apply Hf, list_elem_of_In. by eapply list_elem_of_lookup_2.
Qed.

Lemma view_node_at_item (cb : option (Z -> eff W)) appts i a :
  appts !! i = Some a ->
  node_at (AppointmentList_view cb appts) [1; i] = Some (item_node cb a).
Proof. intros Hi. simpl. by rewrite (lookup_map_Some _ _ _ _ Hi). Qed.

Lemma view_item_handlers (cb : option (Z -> eff W)) appts i a q :
  appts !! i = Some a ->
  is_Some (node_at (AppointmentList_view cb appts) ([1; i] ++ q)) ->
  handlers_at (AppointmentList_view cb appts) ([1; i] ++ q) =
    Some [call_onAppointmentClick cb (id a)].
Proof.
  intros Hi Hq. pose proof (view_node_at_item cb appts i a Hi) as Hn.
  rewrite node_at_app, Hn in Hq. rewrite (handlers_at_app _ _ _ _ Hn).
  rewrite item_node_handlers by done. simpl. by rewrite (lookup_map_Some _ _ _ _ Hi).
Qed.

Lemma view_other_handlers (cb : option (Z -> eff W)) appts p :
  (forall i q, p <> 1 :: i :: q) ->
  handlers_at (AppointmentList_view cb appts) p = None \/
  handlers_at (AppointmentList_view cb appts) p = Some [].
Proof.
  intros Hp. destruct p as [|[|[|k]] q]; simpl; [by right| | |by left].
  - rewrite handlers_at_handler_free by done. destruct (node_at _ q); auto.
  - destruct q as [|i q]; [by right|]. by destruct (Hp i q).
Qed.

Lemma item_query_li (cb : option (Z -> eff W)) a :
  query_tag "li" (item_node cb a) = [item_node cb a].
Proof.
  unfold item_node, item_children, text_node.
  destruct (String.eqb (patient a) ""), (String.eqb (doctor a) ""),
    (String.eqb (start_time a) ""), (String.eqb (end_time a) ""),
    (String.eqb (status a) ""), (String.eqb (reason a) ""); reflexivity.
Qed.

Lemma item_query_h2 (cb : option (Z -> eff W)) a : query_tag "h2" (item_node cb a) = [].
Proof.
  unfold item_node, item_children, text_node.
  destruct (String.eqb (patient a) ""), (String.eqb (doctor a) ""),
    (String.eqb (start_time a) ""), (String.eqb (end_time a) ""),
    (String.eqb (status a) ""), (String.eqb (reason a) ""); reflexivity.
Qed.

Lemma view_query_li (cb : option (Z -> eff W)) appts :
  query_tag "li" (AppointmentList_view cb appts) = map (item_node cb) appts.
Proof.
  simpl. rewrite !app_nil_r. induction appts as [|a appts IH]; [done|].
  cbn [map flat_map]. rewrite item_query_li, IH. done.
Qed.

Lemma item_text_content (cb : option (Z -> eff W)) a :
  text_content (item_node cb a) =
  (patient a ++ " with Dr. " ++ doctor a ++ start_time a ++ " - " ++ end_time a ++
   "Status: " ++ status a ++ " | Reason: " ++ reason a)%string.
Proof.
  unfold item_node, item_children. cbn [text_content].
  rewrite !map_app. cbn [map text_content].
  autorewrite with hc_rw. cbn [str_concat String.concat].
  autorewrite with hc_rw. rewrite <-?str_app_assoc. reflexivity.
Qed.

Lemma parse_item_node (cb : option (Z -> eff W)) a :
  fields_nonempty a = true -> parse_item (item_node cb a) = Some a.
Proof.
  unfold fields_nonempty. cbn [forallb].
  unfold item_node, item_children, text_node, appointment_key.
  destruct (String.eqb (patient a) ""), (String.eqb (doctor a) ""),
    (String.eqb (start_time a) ""), (String.eqb (end_time a) ""),
    (String.eqb (status a) ""), (String.eqb (reason a) ""); intros H;
    try discriminate H.
  cbn [parse_item app]. rewrite parse_int_number_to_string. by destruct a.
Qed.

Lemma view_query_h2 (cb : option (Z -> eff W)) appts :
  query_tag "h2" (AppointmentList_view cb appts) =
  [Element "h2" None None [Text "Appointment List"]].
Proof.
  simpl. rewrite !app_nil_r. f_equal. induction appts as [|a appts IH]; [done|].
  cbn [map flat_map]. by rewrite item_query_h2, IH.
Qed.

(** A click inside the i-th mounted item runs the item's closure once. *)
Lemma mounted_item_click (props : AppointmentListProps W) appts fuel root i a q w :
  appointments props = Some appts ->
  mount fuel (AppointmentList_element props) = Returns root ->
  appts !! i = Some a -> is_Some (node_at root ([1; i] ++ q)) ->
  dispatch_click root ([1; i] ++ q) w =
  Some (call_onAppointmentClick (onAppointmentClick props) (id a) w).
Proof.
  intros Hp Hm Hi Hq. rewrite (AppointmentList_mounted_root _ _ _ _ Hp Hm) in *.
  unfold dispatch_click. by rewrite (view_item_handlers _ _ _ _ _ Hi Hq), run_handlers_one.
Qed.

(** ** The properties of the component *)

(** C1. With the [appointments] prop defined, mounting
    [<AppointmentList>] with any fuel from 6 gives exactly the tree
    [AppointmentList_view]: a div holding the heading "Appointment List"
    and a list with one item per appointment, in input order. *)
Theorem AppointmentList_renders (props : AppointmentListProps W) appts fuel :
  appointments props = Some appts -> 6 <= fuel ->
  mount fuel (AppointmentList_element props) =
  Returns (AppointmentList_view (onAppointmentClick props) appts).
Proof.
  intros Hp Hf. pose proof (AppointmentList_mount_6 props appts Hp) as H6.
  rewrite (mount_fuel_mono 6 fuel); [done | by rewrite H6 | done].
Qed.

(** C2. A click on any node inside the i-th item of the mounted list
    (the item itself or any of its descendants) runs the callback exactly
    once, with the id of the i-th appointment, and nothing else. *)
Theorem click_item_calls_callback (props : AppointmentListProps W) appts cb fuel root
    i a q w :
  appointments props = Some appts -> onAppointmentClick props = Some cb ->
  mount fuel (AppointmentList_element props) = Returns root ->
  appts !! i = Some a -> is_Some (node_at root ([1; i] ++ q)) ->
  dispatch_click root ([1; i] ++ q) w = Some (cb (id a) w).
Proof.
  intros Hp Hcb Hm Hi Hq. rewrite (mounted_item_click props appts fuel root i a q w) by done.
  unfold call_onAppointmentClick. by rewrite Hcb.
Qed.

(** C3. A click anywhere outside the items (the container, the heading,
    the list itself) runs no handler: the world is unchanged and no error
    is raised, or there is no node at that path. *)
Theorem click_outside_items_inert (props : AppointmentListProps W) appts fuel root p w :
  appointments props = Some appts ->
  mount fuel (AppointmentList_element props) = Returns root ->
  (forall i q, p <> 1 :: i :: q) ->
  dispatch_click root p w = None \/ dispatch_click root p w = Some (w, None).
Proof.
  intros Hp Hm Hout. rewrite (AppointmentList_mounted_root _ _ _ _ Hp Hm).
  unfold dispatch_click.
  destruct (view_other_handlers (onAppointmentClick props) appts p Hout) as [-> | ->];
    auto.
Qed.

(** C4. The [<li>] elements of the mounted tree carry, in document order,
    the keys [String(id)] of the appointments in input order: the list is
    neither sorted nor filtered. *)
Theorem items_in_input_order (props : AppointmentListProps W) appts fuel root :
  appointments props = Some appts ->
  mount fuel (AppointmentList_element props) = Returns root ->
  map node_key (query_tag "li" root) = map (fun a => Some (appointment_key a)) appts.
Proof.
  intros Hp Hm. rewrite (AppointmentList_mounted_root _ _ _ _ Hp Hm), view_query_li.
  by rewrite map_map.
Qed.

(** C5. The mounted tree has exactly as many [<li>] elements as there are
    appointments; none for the empty list. *)
Theorem item_count (props : AppointmentListProps W) appts fuel root :
  appointments props = Some appts ->
  mount fuel (AppointmentList_element props) = Returns root ->
  List.length (query_tag "li" root) = List.length appts.
Proof.
  intros Hp Hm. rewrite (AppointmentList_mounted_root _ _ _ _ Hp Hm), view_query_li.
  apply length_map.
Qed.

(** C6. The text of the i-th item is the patient, " with Dr. ", the
    doctor, the start time, " - ", the end time, "Status: ", the status,
    " | Reason: " and the reason, in that order (line breaks add no
    text). *)
Theorem item_text (props : AppointmentListProps W) appts fuel root i a n :
  appointments props = Some appts ->
  mount fuel (AppointmentList_element props) = Returns root ->
  appts !! i = Some a -> query_tag "li" root !! i = Some n ->
  text_content n =
  (patient a ++ " with Dr. " ++ doctor a ++ start_time a ++ " - " ++ end_time a ++
   "Status: " ++ status a ++ " | Reason: " ++ reason a)%string.
Proof.
  intros Hp Hm Hi Hn. rewrite (AppointmentList_mounted_root _ _ _ _ Hp Hm),
    view_query_li, (lookup_map_Some _ _ _ _ Hi) in Hn.
  injection Hn as <-. apply item_text_content.
Qed.

(** C7. The keys of the sibling [<li>] elements are pairwise distinct
    exactly when the appointments have pairwise distinct ids: the
    component relies on, and does not check, the uniqueness of ids. *)
Theorem keys_unique_iff_ids_unique (props : AppointmentListProps W) appts fuel root :
  appointments props = Some appts ->
  mount fuel (AppointmentList_element props) = Returns root ->
  NoDup (map node_key (query_tag "li" root)) <-> unique_ids appts.
Proof.
  intros Hp Hm. rewrite (items_in_input_order props appts fuel root Hp Hm).
  unfold unique_ids. rewrite <-(map_map id (fun z => Some (number_to_string z))).
  assert (Inj (=) (=) (fun z => Some (number_to_string z))).
  { intros x y [= Hxy]. by apply (inj number_to_string). }
  split; [apply NoDup_fmap_1 | apply NoDup_fmap_2; apply _].
Qed.

(** C8. When the [appointments] prop is undefined, [appointments.map]
    throws a TypeError while the component renders, so nothing is
    mounted. *)
Theorem missing_appointments_throws (props : AppointmentListProps W) fuel :
  appointments props = None -> 1 <= fuel ->
  mount fuel (AppointmentList_element props) =
  Throws (TypeError "Cannot read properties of undefined (reading 'map')").
Proof.
  intros Hp Hf. destruct fuel as [|f]; [lia|].
  unfold AppointmentList_element, create_element. rewrite mount_comp.
  unfold AppointmentList. by rewrite Hp.
Qed.

(** C9. When [onAppointmentClick] is undefined the list still renders,
    and a click inside an item leaves the world unchanged and raises the
    TypeError "onAppointmentClick is not a function". *)
Theorem missing_callback_click_throws (props : AppointmentListProps W) appts fuel root
    i a q w :
  appointments props = Some appts -> onAppointmentClick props = None ->
  mount fuel (AppointmentList_element props) = Returns root ->
  appts !! i = Some a -> is_Some (node_at root ([1; i] ++ q)) ->
  dispatch_click root ([1; i] ++ q) w =
  Some (w, Some (TypeError "onAppointmentClick is not a function")).
Proof.
  intros Hp Hcb Hm Hi Hq. rewrite (mounted_item_click props appts fuel root i a q w) by done.
  unfold call_onAppointmentClick. by rewrite Hcb.
Qed.

(** C10. When no text field of an appointment is empty, the i-th mounted
    item determines it: its key gives back the id and its text children
    the six fields. *)
Theorem item_roundtrip (props : AppointmentListProps W) appts fuel root i a n :
  appointments props = Some appts ->
  mount fuel (AppointmentList_element props) = Returns root ->
  appts !! i = Some a -> fields_nonempty a = true ->
  query_tag "li" root !! i = Some n ->
  parse_item n = Some a.
Proof.
  intros Hp Hm Hi Ha Hn. rewrite (AppointmentList_mounted_root _ _ _ _ Hp Hm),
    view_query_li, (lookup_map_Some _ _ _ _ Hi) in Hn.
  injection Hn as <-. by apply parse_item_node.
Qed.

(** C11. Whatever the list, the mounted tree has exactly one [<h2>], whose
    text is "Appointment List" (for the empty list it is all there is
    besides the empty [<ul>]). *)
Theorem heading_rendered_once (props : AppointmentListProps W) appts fuel root :
  appointments props = Some appts ->
  mount fuel (AppointmentList_element props) = Returns root ->
  map text_content (query_tag "h2" root) = ["Appointment List"].
Proof.
  intros Hp Hm. rewrite (AppointmentList_mounted_root _ _ _ _ Hp Hm), view_query_h2.
  reflexivity.
Qed.

End AppointmentListProofs.

(** ** Witnesses *)

Lemma AppointmentList_renders_witness :
  mount 6 (AppointmentList_element demo_props) = Returns demo_root.
Proof. apply (AppointmentList_renders demo_props [alice; bob] 6); [reflexivity | lia]. Defined.

Lemma click_item_calls_callback_witness :
  dispatch_click demo_root ([1; 1] ++ [0]) [7%Z] = Some ([7; 2]%Z, None).
Proof.
  rewrite (click_item_calls_callback demo_props [alice; bob] log_click 6 demo_root 1 bob);
    try reflexivity.
  by eexists.
Defined.

Lemma click_outside_items_inert_witness :
  dispatch_click demo_root [0; 0] [7%Z] = None \/
  dispatch_click demo_root [0; 0] [7%Z] = Some ([7%Z], None).
Proof.
  apply (click_outside_items_inert demo_props [alice; bob] 6); [reflexivity | reflexivity |].
  by intros i q [=].
Defined.

Lemma items_in_input_order_witness :
  map node_key (query_tag "li" demo_root) = [Some "1"; Some "2"].
Proof. by rewrite (items_in_input_order demo_props [alice; bob] 6 demo_root). Defined.

Lemma item_count_witness : List.length (query_tag "li" demo_root) = 2.
Proof. by rewrite (item_count demo_props [alice; bob] 6 demo_root). Defined.

Lemma item_text_witness :
  query_tag "li" demo_root !! 0 = Some (item_node (Some log_click) alice) /\
  text_content (item_node (Some log_click) alice) =
  "Alice with Dr. Smith09:00 - 09:30Status: confirmed | Reason: checkup".
Proof.
  split; [reflexivity|].
  by rewrite (item_text demo_props [alice; bob] 6 demo_root 0 alice).
Defined.

Lemma keys_unique_iff_ids_unique_witness :
  NoDup (map node_key (query_tag "li" demo_root)).
Proof.
  apply (keys_unique_iff_ids_unique demo_props [alice; bob] 6 demo_root);
    [reflexivity | reflexivity | unfold unique_ids; cbn; by apply (bool_decide_unpack _)].
Defined.

Lemma missing_appointments_throws_witness :
  mount 6 (AppointmentList_element
             {| appointments := None; onAppointmentClick := Some log_click |}) =
  Throws (TypeError "Cannot read properties of undefined (reading 'map')").
Proof. apply missing_appointments_throws; [reflexivity | lia]. Defined.

Lemma missing_callback_click_throws_witness :
  dispatch_click (AppointmentList_view None [alice; bob]) ([1; 0] ++ []) [7%Z] =
  Some ([7%Z], Some (TypeError "onAppointmentClick is not a function")).
Proof.
  apply (missing_callback_click_throws
           {| appointments := Some [alice; bob]; onAppointmentClick := None |}
           [alice; bob] 6 _ 0 alice); try reflexivity.
  by eexists.
Defined.

Lemma item_roundtrip_witness :
  parse_item (item_node (Some log_click) alice) = Some alice.
Proof.
  apply (item_roundtrip demo_props [alice; bob] 6 demo_root 0); reflexivity.
Defined.

Lemma heading_rendered_once_witness :
  map text_content
    (query_tag "h2" (AppointmentList_view (Some log_click) [])) = ["Appointment List"].
Proof.
  apply (heading_rendered_once {| appointments := Some []; onAppointmentClick := Some log_click |}
           [] 6); reflexivity.
Defined.
