(* ===== verification/Home.v ===== *)
(** * The Home page (pages/Home.tsx) and its use of AppointmentList

    [Home] is the component of Home.tsx (lines 4-12), written as its JSX:
    a div with a heading, a paragraph and the element [<AppointmentList />]
    (line 9), which has no attribute.  React builds the props object of
    that element from its attributes ([props_of_attrs]); with none, both
    props are undefined.  The theorem of the file: mounting Home ends in
    the TypeError that [appointments.map] raises inside that element, so
    the page never shows its heading. *)

From S2P Require Import Prelude Jsx Appointment AppointmentList.

Section Home.
Context {W : Type}.

(** A JSX attribute of an [<AppointmentList>] element. *)
Inductive AppointmentList_attr :=
  | attr_appointments (v : list Appointment)
  | attr_onAppointmentClick (f : Z -> eff W).

(** The props object of the element: attributes in order, a later one
    overriding an earlier one; an absent prop is [undefined]. *)
Definition apply_attr (p : AppointmentListProps W) (a : AppointmentList_attr)
    : AppointmentListProps W :=
  match a with
  | attr_appointments v =>
      {| appointments := Some v; onAppointmentClick := onAppointmentClick p |}
  | attr_onAppointmentClick f =>
      {| appointments := appointments p; onAppointmentClick := Some f |}
  end.

Definition props_of_attrs (attrs : list AppointmentList_attr) : AppointmentListProps W :=
  fold_left apply_attr attrs {| appointments := None; onAppointmentClick := None |}.

(** The attributes of [<AppointmentList />] at line 9 of Home.tsx. *)
Definition Home_AppointmentList_attrs : list AppointmentList_attr := [].

Definition Home (_ : unit) : outcome (relem W) :=
  Returns (jsx_el "div" None None
    [ JText (indent 12);
      JElem "h1" None None [JText "Welcome to the Healthcare System"];
      JText (indent 12);
      JElem "p" None None [JText "Manage your appointments efficiently."];
      JText (indent 12);
      JComp "AppointmentList"
        (fun _ => AppointmentList (props_of_attrs Home_AppointmentList_attrs));
      JText (indent 8) ]).

Definition Home_element : relem W := create_element "Home" Home tt.

End Home.

Arguments AppointmentList_attr W : clear implicits.

Section HomeProofs.
Context {W : Type}.

Lemma Home_mount_4 :
  mount 4 (Home_element (W:=W)) =
  Throws (TypeError "Cannot read properties of undefined (reading 'map')").
Proof. reflexivity. Qed.

(** C12. Rendering Home throws: with any fuel from 4, mounting the page
    ends in the TypeError that [appointments.map] raises inside the
    [<AppointmentList />] of line 9, whose [appointments] prop is
    undefined. *)
Theorem Home_render_throws fuel :
  4 <= fuel ->
  mount fuel (Home_element (W:=W)) =
  Throws (TypeError "Cannot read properties of undefined (reading 'map')").
Proof.
  intros Hf. rewrite (mount_fuel_mono 4 fuel); [apply Home_mount_4 | by rewrite Home_mount_4 | done].
Qed.

End HomeProofs.

(** ** Witnesses *)

Lemma Home_render_throws_witness :
  mount 4 (Home_element (W:=list Z)) =
  Throws (TypeError "Cannot read properties of undefined (reading 'map')").
Proof. apply Home_render_throws. lia. Defined.
