(* ===== verification/Interaction.v ===== *)
(** * The click contract of a list component, and sequences of clicks

    [ClickableList] states what a clickable list promises a client: an
    element to mount from its props, the ids of its items in order, the
    callback, the path of the i-th item in the mounted tree, and the law
    that a click inside item i runs the callback once with the i-th id.
    [AppointmentList_clickable] discharges it for the component of
    AppointmentList.tsx.  [click_all] runs a sequence of clicks on one
    mounted tree, threading the world (spec section 4.1: "exactly once per
    interaction"); [click_all_items] is proved against the class alone. *)

From S2P Require Import Prelude Jsx Appointment AppointmentList.

Class ClickableList (W P : Type) := {
  cl_element : P -> relem W;
  cl_ids : P -> option (list Z);
  cl_callback : P -> option (Z -> eff W);
  cl_item_path : nat -> list nat;
  cl_click : forall props ids cb fuel root i x q w,
    cl_ids props = Some ids -> cl_callback props = Some cb ->
    mount fuel (cl_element props) = Returns root ->
    ids !! i = Some x -> is_Some (node_at root (cl_item_path i ++ q)) ->
    dispatch_click root (cl_item_path i ++ q) w = Some (cb x w)
}.

Section Clicks.
Context {W : Type}.

(** Clicks on the paths in order; [None] when a path addresses no node. *)
Fixpoint click_all (root : node W) (paths : list (list nat)) (w : W)
    : option (W * list (option js_error)) :=
  match paths with
  | [] => Some (w, [])
  | p :: ps =>
      match dispatch_click root p w with
      | Some (w', e) =>
          match click_all root ps w' with
          | Some (w'', es) => Some (w'', e :: es)
          | None => None
          end
      | None => None
      end
  end.

(** The callback run on the ids in order. *)
Fixpoint run_callbacks (cb : Z -> eff W) (xs : list Z) (w : W)
    : W * list (option js_error) :=
  match xs with
  | [] => (w, [])
  | x :: r => let '(w', e) := cb x w in
              let '(w'', es) := run_callbacks cb r w' in (w'', e :: es)
  end.

End Clicks.

#[export] Program Instance AppointmentList_clickable {W : Type}
    : ClickableList W (AppointmentListProps W) := {
  cl_element := AppointmentList_element;
  cl_ids p := map id <$> appointments p;
  cl_callback := onAppointmentClick;
  cl_item_path i := [1; i]
}.
Next Obligation.
  intros W props ids cb fuel root i x q w Hids Hcb Hm Hx Hq.
  simpl in Hids, Hcb, Hm, Hq. cbv beta.
  destruct (appointments props) as [appts|] eqn:Hp; simpl in Hids; [|done].
  injection Hids as <-.
  rewrite list_lookup_fmap in Hx.
  destruct (appts !! i) as [a|] eqn:Ha; [|done]. injection Hx as <-.
  rewrite (mounted_item_click props appts fuel root i a q w) by done.
  unfold call_onAppointmentClick. by rewrite Hcb.
Qed.

Section ClickProofs.
Context {W P : Type} `{!ClickableList W P}.

Lemma click_all_items props ids cb fuel root (idxs : list nat) (xs : list Z) w :
  cl_ids props = Some ids -> cl_callback props = Some cb ->
  mount fuel (cl_element props) = Returns root ->
  Forall2 (fun i x => ids !! i = Some x) idxs xs ->
  Forall (fun i => is_Some (node_at root (cl_item_path i))) idxs ->
  click_all root (map cl_item_path idxs) w = Some (run_callbacks cb xs w).
Proof.
  intros Hids Hcb Hm Hix. revert w.
  induction Hix as [|i x idxs xs Hx Hrest IH]; intros w Hnodes; [done|].
  inv Hnodes as [|? ? Hi Hnodes']. simpl.
  pose proof (cl_click props ids cb fuel root i x [] w Hids Hcb Hm Hx) as Hc.
  rewrite app_nil_r in Hc. rewrite Hc by done.
  destruct (cb x w) as [w' e]. rewrite IH by done.
  by destruct (run_callbacks cb xs w').
Qed.

End ClickProofs.

Lemma run_callbacks_log_click xs log :
  run_callbacks log_click xs log = (log ++ xs, map (fun _ => None) xs).
Proof.
  revert log. induction xs as [|x xs IH]; intros log; simpl; [by rewrite app_nil_r|].
  rewrite IH. by rewrite <-app_assoc.
Qed.

(** C13. On the mounted list, clicking the items i1, ..., ik in turn with
    a callback that logs its argument appends to the log exactly the ids
    of those items, in click order, one per click, and raises no error. *)
Theorem clicks_logged_in_order (appts : list Appointment) fuel root (idxs : list nat)
    (clicked : list Appointment) (log : list Z) :
  mount fuel (AppointmentList_element
                {| appointments := Some appts; onAppointmentClick := Some log_click |}) =
    Returns root ->
  Forall2 (fun i a => appts !! i = Some a) idxs clicked ->
  click_all root (map (fun i => [1; i]) idxs) log =
  Some (log ++ map id clicked, map (fun _ => None) clicked).
Proof.
  intros Hm Hic.
  assert (Hroot := AppointmentList_mounted_root
    {| appointments := Some appts; onAppointmentClick := Some log_click |} appts _ _ eq_refl Hm).
  change (map (fun i => [1; i]) idxs)
    with (map (cl_item_path (W := list Z) (P := AppointmentListProps (list Z))) idxs).
  rewrite (click_all_items (P := AppointmentListProps (list Z))
             {| appointments := Some appts; onAppointmentClick := Some log_click |}
             (map id appts) log_click fuel root idxs (map id clicked) log);
    [ | done | done | done | | ].
  - rewrite run_callbacks_log_click. by rewrite map_map.
  - induction Hic; constructor; [|done].
    by rewrite list_lookup_fmap; simplify_option_eq.
  - subst root. induction Hic as [|i a idxs clicked Hi _ IH]; constructor; [|done].
    simpl cl_item_path. by rewrite (view_node_at_item _ _ _ _ Hi).
Qed.

Lemma clicks_logged_in_order_witness :
  click_all demo_root [[1; 1]; [1; 0]; [1; 1]] [] = Some ([2; 1; 2]%Z, [None; None; None]).
Proof.
  apply (clicks_logged_in_order [alice; bob] 6 demo_root [1; 0; 1] [bob; alice; bob] []);
    [reflexivity | repeat constructor].
Defined.
